(** * SimpleLogger: the logging interface, its null object and [normalize]

    A shallow embedding of the two headers of
    [iif_sadaf::talk::simple_logger] (the enumeration [LogLevel], the
    abstract class [SimpleLogger], and, in the fuller one, the class
    [NullLogger] and the functions [null_logger] and [normalize]) and of the
    [ConsoleLogger] sample implementer given in the README.

    Member functions are state transformers that may return, throw, or have
    undefined behaviour; virtual dispatch is a record of slots; pointers are
    either [nullptr] or the address of an object. *)

From Stdlib Require Import ZArith String Ascii List Bool Lia.
Import ListNotations.
Local Open Scope Z_scope.

(** ** Effects *)

(** What a call can do on a state of type [St]: return a value, leave by an
    exception, or have no defined meaning (a member call through [nullptr]). *)
Inductive outcome (St Exn A : Type) : Type :=
| Returns (a : A) (s : St)
| Throws (e : Exn) (s : St)
| Undefined.

Arguments Returns {St Exn A} a s.
Arguments Throws {St Exn A} e s.
Arguments Undefined {St Exn A}.

Definition action (St Exn A : Type) : Type := St -> outcome St Exn A.

Definition ret {St Exn A : Type} (a : A) : action St Exn A :=
  fun s => Returns a s.

Definition bind {St Exn A B : Type}
    (c : action St Exn A) (k : A -> action St Exn B) : action St Exn B :=
  fun s =>
    match c s with
    | Returns a s' => k a s'
    | Throws e s' => Throws e s'
    | Undefined => Undefined
    end.

(** The value a call returned, if it returned. *)
Definition returned {St Exn A : Type} (o : outcome St Exn A) : option A :=
  match o with
  | Returns a _ => Some a
  | Throws _ _ => None
  | Undefined => None
  end.

Declare Scope action_scope.
Delimit Scope action_scope with action.
Notation "x <- c ;; k" := (bind c (fun x => k))
  (at level 61, c at next level, right associativity) : action_scope.
Notation "c ;; k" := (bind c (fun _ => k))
  (at level 61, right associativity) : action_scope.
Local Open Scope action_scope.

Module simple_logger.

(** ** [enum class LogLevel { Info, Debug, Trace, };] *)

Inductive LogLevel : Type := Info | Debug | Trace.

(** The enumerators in declaration order. *)
Definition enumerators : list LogLevel := [Info; Debug; Trace].

(** No enumerator has an initializer: the first has value 0 and every other
    one the value of its predecessor plus one. *)
Definition to_underlying (l : LogLevel) : Z :=
  match l with
  | Info => 0
  | Debug => 1
  | Trace => 2
  end.

(** The built-in relational operators of a scoped enumeration compare the
    underlying values. *)
Definition LogLevel_eqb (a b : LogLevel) : bool := to_underlying a =? to_underlying b.
Definition LogLevel_ltb (a b : LogLevel) : bool := to_underlying a <? to_underlying b.
Definition LogLevel_leb (a b : LogLevel) : bool := to_underlying a <=? to_underlying b.
Definition LogLevel_gtb (a b : LogLevel) : bool := to_underlying a >? to_underlying b.
Definition LogLevel_geb (a b : LogLevel) : bool := to_underlying a >=? to_underlying b.

(** ** [class SimpleLogger] *)

Section Interface.
Context {World Exn : Type}.

(** An object seen through [SimpleLogger*]: one slot per virtual member
    function.  The non-virtual members [info], [debug] and [trace] have no
    slot. *)
Record SimpleLogger : Type := {
  get_log_level : action World Exn LogLevel;
  set_log_level : LogLevel -> action World Exn unit;
  log : LogLevel -> string -> action World Exn unit;
  is_active : action World Exn bool
}.

(** [void info(std::string_view message) { log(LogLevel::Info, message); }] *)
Definition info (this : SimpleLogger) (message : string) : action World Exn unit :=
  log this Info message ;; ret tt.

(** [void debug(std::string_view message) { log(LogLevel::Debug, message); }] *)
Definition debug (this : SimpleLogger) (message : string) : action World Exn unit :=
  log this Debug message ;; ret tt.

(** [void trace(std::string_view message) { log(LogLevel::Trace, message); }] *)
Definition trace (this : SimpleLogger) (message : string) : action World Exn unit :=
  log this Trace message ;; ret tt.

(** [virtual bool is_active() const { return true; }] *)
Definition SimpleLogger_is_active : action World Exn bool := ret true.

(** What a class derived from [SimpleLogger] declares: the three pure
    virtual functions must be overridden, [is_active] may be. *)
Record Implementer : Type := {
  override_get_log_level : action World Exn LogLevel;
  override_set_log_level : LogLevel -> action World Exn unit;
  override_log : LogLevel -> string -> action World Exn unit;
  override_is_active : option (action World Exn bool)
}.

(** The slots of an object of a derived class: the final overrider of each
    virtual function. *)
Definition derive (d : Implementer) : SimpleLogger :=
  {| get_log_level := override_get_log_level d;
     set_log_level := override_set_log_level d;
     log := override_log d;
     is_active :=
       match override_is_active d with
       | Some f => f
       | None => SimpleLogger_is_active
       end |}.

(** ** [class NullLogger : public SimpleLogger] *)

(** The four overriders are declared without an access specifier, hence
    private to [NullLogger]: they are called through [SimpleLogger], where
    the functions they override are public. *)

Definition NullLogger_overrides : Implementer :=
  {| override_get_log_level := ret Info;
     override_set_log_level := fun _level => ret tt;
     override_log := fun _level _message => ret tt;
     override_is_active := Some (ret false) |}.

Definition NullLogger : SimpleLogger := derive NullLogger_overrides.

(** ** Objects, pointers and the process state *)

(** The application's logger objects, each with the class it was
    constructed from. *)
Context {AppObject : Type}.
Variable class_of : AppObject -> Implementer.

(** The logger objects of a process: the function-local static of
    [null_logger] and the application's. *)
Inductive object : Type :=
| instance
| app_object (o : AppObject).

(** A [SimpleLogger*]. *)
Inductive pointer : Type :=
| nullptr
| address_of (o : object).

(** [logger ? a : b] converts the pointer to [bool]. *)
Definition to_bool (p : pointer) : bool :=
  match p with
  | nullptr => false
  | address_of _ => true
  end.

(** The state of a process: the guard of the function-local static and
    everything the application's loggers can read or write. *)
Record Process : Type := {
  instance_initialized : bool;
  world : World
}.

(** A member function runs on the world and leaves the guard alone. *)
Definition on_world {A : Type} (c : action World Exn A) : action Process Exn A :=
  fun p =>
    match c (world p) with
    | Returns a w => Returns a {| instance_initialized := instance_initialized p; world := w |}
    | Throws e w => Throws e {| instance_initialized := instance_initialized p; world := w |}
    | Undefined => Undefined
    end.

(** The dynamic type of an object selects its slots. *)
Definition vtable (o : object) : SimpleLogger :=
  match o with
  | instance => NullLogger
  | app_object a => derive (class_of a)
  end.

(** [p->f(...)]: a member call through a pointer. *)
Definition arrow {A : Type} (p : pointer) (f : SimpleLogger -> action World Exn A)
  : action Process Exn A :=
  match p with
  | nullptr => fun _ => Undefined
  | address_of o => on_world (f (vtable o))
  end.

(** [static NullLogger instance;]: initialized the first time control
    passes through the declaration; the implicit constructor of
    [NullLogger] does nothing else. *)
Definition static_NullLogger_instance : action Process Exn unit :=
  fun p =>
    if instance_initialized p then Returns tt p
    else Returns tt {| instance_initialized := true; world := world p |}.

(** [inline NullLogger* null_logger() { static NullLogger instance; return &instance; }] *)
Definition null_logger : action Process Exn pointer :=
  static_NullLogger_instance ;; ret (address_of instance).

(** [inline SimpleLogger* normalize(SimpleLogger* logger)
     { return logger ? logger : null_logger(); }] *)
Definition normalize (logger : pointer) : action Process Exn pointer :=
  if to_bool logger then ret logger else null_logger.

(** ** Sequences of member calls *)

(** One call of a member function of [SimpleLogger], with its arguments. *)
Inductive call : Type :=
| call_get_log_level
| call_set_log_level (level : LogLevel)
| call_log (level : LogLevel) (message : string)
| call_info (message : string)
| call_debug (message : string)
| call_trace (message : string)
| call_is_active.

(** What the caller gets back. *)
Inductive answer : Type :=
| answer_level (level : LogLevel)
| answer_bool (b : bool)
| answer_void.

Definition perform (this : SimpleLogger) (c : call) : action World Exn answer :=
  match c with
  | call_get_log_level => l <- get_log_level this ;; ret (answer_level l)
  | call_set_log_level level => set_log_level this level ;; ret answer_void
  | call_log level message => log this level message ;; ret answer_void
  | call_info message => info this message ;; ret answer_void
  | call_debug message => debug this message ;; ret answer_void
  | call_trace message => trace this message ;; ret answer_void
  | call_is_active => b <- is_active this ;; ret (answer_bool b)
  end.

(** The calls [cs] made one after the other through the pointer [p]. *)
Fixpoint perform_all (p : pointer) (cs : list call) : action Process Exn (list answer) :=
  match cs with
  | [] => ret []
  | c :: rest =>
      a <- arrow p (fun this => perform this c) ;;
      answers <- perform_all p rest ;;
      ret (a :: answers)
  end.

End Interface.

Arguments SimpleLogger : clear implicits.
Arguments Implementer : clear implicits.
Arguments Process : clear implicits.
Arguments object : clear implicits.
Arguments pointer : clear implicits.

(** ** Declaration order *)

Definition LogLevel_eq_dec (a b : LogLevel) : {a = b} + {a <> b}.
Proof. decide equality. Defined.

(** The position of [l] in a list of enumerators ([length] when absent). *)
Fixpoint position_in (ls : list LogLevel) (l : LogLevel) : nat :=
  match ls with
  | [] => 0%nat
  | x :: rest => if LogLevel_eq_dec x l then 0%nat else S (position_in rest l)
  end.

Definition position (l : LogLevel) : nat := position_in enumerators l.

(** ** Threshold filtering *)

Section Threshold.
Context {World Exn : Type}.

(** [includes level threshold]: the comparison the implementer makes. *)
Variable includes : LogLevel -> LogLevel -> bool.
(** The threshold an implementer currently holds, what it has shown so far,
    and how it shows one message. *)
Variable current_level : World -> LogLevel.
Variable output : World -> string.
Variable render : LogLevel -> string -> string.

(** An implementer that keeps the level it is given and whose [log] shows
    the message exactly when [includes level current_level]. *)
Definition filters_by (this : SimpleLogger World Exn) : Prop :=
  (forall level w, exists w',
      set_log_level this level w = Returns tt w' /\
      current_level w' = level /\
      output w' = output w) /\
  (forall level message w, exists w',
      log this level message w = Returns tt w' /\
      current_level w' = current_level w /\
      output w' =
        if includes level (current_level w)
        then (output w ++ render level message)%string
        else output w).

(** [set_log_level(Debug); log(Info, "a"); log(Debug, "b"); log(Trace, "c");] *)
Definition scenario (this : SimpleLogger World Exn) : action World Exn unit :=
  set_log_level this Debug ;;
  log this Info "a" ;;
  log this Debug "b" ;;
  log this Trace "c".

(** The scenario returns and shows exactly the messages [shown], in order. *)
Definition scenario_shows (this : SimpleLogger World Exn)
    (shown : list (LogLevel * string)) : Prop :=
  forall w, exists w',
    scenario this w = Returns tt w' /\
    output w' =
      (output w ++ String.concat EmptyString (map (fun lm => render (fst lm) (snd lm)) shown))%string.

End Threshold.

End simple_logger.

(** ** [include/SimpleLogger/simple_logger.hpp] *)

(** The header under [include/] declares the same [LogLevel] and a
    [SimpleLogger] with the same three pure virtual functions and the same
    three wrappers, and nothing else: no [is_active], no [NullLogger], no
    [null_logger], no [normalize]. *)
Module simple_logger_hpp.
Import simple_logger.

Section Interface.
Context {World Exn : Type}.

Record SimpleLogger : Type := {
  get_log_level : action World Exn LogLevel;
  set_log_level : LogLevel -> action World Exn unit;
  log : LogLevel -> string -> action World Exn unit
}.

(** [void info(std::string_view message) { log(LogLevel::Info, message); }] *)
Definition info (this : SimpleLogger) (message : string) : action World Exn unit :=
  log this Info message ;; ret tt.

(** [void debug(std::string_view message) { log(LogLevel::Debug, message); }] *)
Definition debug (this : SimpleLogger) (message : string) : action World Exn unit :=
  log this Debug message ;; ret tt.

(** [void trace(std::string_view message) { log(LogLevel::Trace, message); }] *)
Definition trace (this : SimpleLogger) (message : string) : action World Exn unit :=
  log this Trace message ;; ret tt.

End Interface.

Arguments SimpleLogger : clear implicits.

End simple_logger_hpp.

(** ** The sample implementer of the README *)

Module README.
Import simple_logger.

(** What [ConsoleLogger] reads and writes: its data member and [std::cout]. *)
Record Console : Type := {
  current_level : LogLevel;
  cout : string
}.

(** [std::endl] writes a newline. *)
Definition endl : string := String (ascii_of_nat 10) EmptyString.

(** [(level == LogLevel::Debug) ? "[DEBUG] " : "[INFO] "] *)
Definition prefix (level : LogLevel) : string :=
  if LogLevel_eqb level Debug then "[DEBUG] " else "[INFO] ".

(** What one shown message adds to [std::cout]. *)
Definition line (level : LogLevel) (message : string) : string :=
  (prefix level ++ message ++ endl)%string.

Section ConsoleLogger.
Context {Exn : Type}.

(** [LogLevel get_log_level() const override { return current_level; }] *)
Definition ConsoleLogger_get_log_level : action Console Exn LogLevel :=
  fun c => Returns (current_level c) c.

(** [void set_log_level(LogLevel level) override { current_level = level; }] *)
Definition ConsoleLogger_set_log_level (level : LogLevel) : action Console Exn unit :=
  fun c => Returns tt {| current_level := level; cout := cout c |}.

(** [void log(LogLevel level, std::string_view message) override {
       if (level >= current_level) {
         const char* prefix = (level == LogLevel::Debug) ? "[DEBUG] " : "[INFO] ";
         std::cout << prefix << message << std::endl; } }] *)
Definition ConsoleLogger_log (level : LogLevel) (message : string) : action Console Exn unit :=
  fun c =>
    if LogLevel_geb level (current_level c)
    then Returns tt {| current_level := current_level c;
                       cout := (cout c ++ prefix level ++ message ++ endl)%string |}
    else Returns tt c.

(** [class ConsoleLogger : public SimpleLogger]; it does not override
    [is_active]. *)
Definition ConsoleLogger : Implementer Console Exn :=
  {| override_get_log_level := ConsoleLogger_get_log_level;
     override_set_log_level := ConsoleLogger_set_log_level;
     override_log := ConsoleLogger_log;
     override_is_active := None |}.

(** [ConsoleLogger logger;]: the member initializer gives [Info]. *)
Definition fresh (out : string) : Console :=
  {| current_level := Info; cout := out |}.

End ConsoleLogger.

End README.

(** ** The library function of the README *)

Module Library.
Import simple_logger.

Section semantic_analysis.
Context {World Exn AppObject : Type}.
Variable class_of : AppObject -> Implementer World Exn.

(** [compute_detailed_stats()] is called and nowhere declared: whatever it
    does is a parameter. *)
Variable compute_detailed_stats : action (Process World) Exn string.

(** [void semantic_analysis(SimpleLogger* logger) {
       logger = normalize(logger);
       logger->info("Starting semantic analysis");
       if (logger->is_active()) {
         std::string expensive_debug_info = compute_detailed_stats();
         logger->debug("Model stats: " + expensive_debug_info); }
       logger->debug("Loading model weights from cache");
       logger->debug("Initializing tokenizer");
       logger->trace("Processing 1500 tokens");
       logger->trace("Confidence score: 0.87");
       logger->info("Analysis complete - 3 entities found"); }] *)
Definition semantic_analysis (logger : pointer AppObject) : action (Process World) Exn unit :=
  logger <- normalize logger ;;
  arrow class_of logger (fun this => info this "Starting semantic analysis") ;;
  active <- arrow class_of logger is_active ;;
  (if active : bool
   then expensive_debug_info <- compute_detailed_stats ;;
        arrow class_of logger
          (fun this => debug this ("Model stats: " ++ expensive_debug_info)%string)
   else ret tt) ;;
  arrow class_of logger (fun this => debug this "Loading model weights from cache") ;;
  arrow class_of logger (fun this => debug this "Initializing tokenizer") ;;
  arrow class_of logger (fun this => trace this "Processing 1500 tokens") ;;
  arrow class_of logger (fun this => trace this "Confidence score: 0.87") ;;
  arrow class_of logger (fun this => info this "Analysis complete - 3 entities found").

End semantic_analysis.

(** The messages [semantic_analysis] hands to an active logger, in order,
    each with the level of the wrapper it goes through. *)
Definition messages (expensive_debug_info : string) : list (LogLevel * string) :=
  [ (Info, "Starting semantic analysis");
    (Debug, "Model stats: " ++ expensive_debug_info);
    (Debug, "Loading model weights from cache");
    (Debug, "Initializing tokenizer");
    (Trace, "Processing 1500 tokens");
    (Trace, "Confidence score: 0.87");
    (Info, "Analysis complete - 3 entities found") ]%string.

End Library.

(** ** The application of the README *)

Module Application.
Import simple_logger README Library.

(** [ConsoleLogger logger;]: the one logger object of [main]. *)
Definition logger : object unit := app_object tt.

Section main.
Context {Exn : Type}.

Definition class_of (_ : unit) : Implementer Console Exn := ConsoleLogger.

Variable compute_detailed_stats : action (Process Console) Exn string.

(** The default member initializer [current_level = LogLevel::Info] runs
    when [logger] is constructed. *)
Definition construct_logger : action (Process Console) Exn unit :=
  fun p =>
    Returns tt {| instance_initialized := instance_initialized p;
                  world := fresh (cout (world p)) |}.

(** [std::cout << text;] *)
Definition cout_insert (text : string) : action (Process Console) Exn unit :=
  fun p =>
    Returns tt {| instance_initialized := instance_initialized p;
                  world := {| current_level := current_level (world p);
                              cout := (cout (world p) ++ text)%string |} |}.

Definition switching_to_Debug : string :=
  (endl ++ "--- Switching to Debug level ---" ++ endl ++ endl)%string.

Definition no_logging : string :=
  (endl ++ "--- No logging (pass nullptr) ---" ++ endl ++ endl)%string.

(** [int main() {
       ConsoleLogger logger;
       logger.set_log_level(LogLevel::Info);
       semantic_analysis(&logger);
       std::cout << "\n--- Switching to Debug level ---\n\n";
       logger.set_log_level(LogLevel::Debug);
       semantic_analysis(&logger);
       std::cout << "\n--- No logging (pass nullptr) ---\n\n";
       semantic_analysis(nullptr);
       return 0; }] *)
Definition main : action (Process Console) Exn Z :=
  construct_logger ;;
  arrow class_of (address_of logger) (fun this => set_log_level this Info) ;;
  semantic_analysis class_of compute_detailed_stats (address_of logger) ;;
  cout_insert switching_to_Debug ;;
  arrow class_of (address_of logger) (fun this => set_log_level this Debug) ;;
  semantic_analysis class_of compute_detailed_stats (address_of logger) ;;
  cout_insert no_logging ;;
  semantic_analysis class_of compute_detailed_stats nullptr ;;
  ret 0.

End main.

(** What [ConsoleLogger] writes for the messages it shows. *)
Fixpoint lines (shown : list (LogLevel * string)) : string :=
  match shown with
  | [] => EmptyString
  | lm :: rest => (line (fst lm) (snd lm) ++ lines rest)%string
  end.

(** The messages that pass [level >= threshold]. *)
Definition passing (threshold : LogLevel) (msgs : list (LogLevel * string))
  : list (LogLevel * string) :=
  filter (fun lm => LogLevel_geb (fst lm) threshold) msgs.

(** The argument of the last [set_log_level] among [cs], or [level] when
    there is none. *)
Definition last_set (level : LogLevel) (cs : list call) : LogLevel :=
  fold_left
    (fun acc c => match c with call_set_log_level l => l | _ => acc end)
    cs level.

(** One [log] call per message. *)
Definition log_calls (msgs : list (LogLevel * string)) : list call :=
  map (fun lm => call_log (fst lm) (snd lm)) msgs.

End Application.

(** ** Implementation ideas of the README *)

Module Ideas.
Import simple_logger README.

(** The two streams of the second idea. *)
Record Outputs : Type := {
  debug_file : string;
  console : string
}.

Section separate_outputs.
Context {Exn : Type}.

(** [void log(LogLevel level, std::string_view message) override {
       if (level == LogLevel::Trace) { debug_file << message << std::endl; }
       else { console << message << std::endl; } }] *)
Definition separate_outputs_log (level : LogLevel) (message : string)
  : action Outputs Exn unit :=
  fun o =>
    if LogLevel_eqb level Trace
    then Returns tt {| debug_file := (debug_file o ++ message ++ endl)%string;
                       console := console o |}
    else Returns tt {| debug_file := debug_file o;
                       console := (console o ++ message ++ endl)%string |}.

(** The messages [msgs] logged one after the other. *)
Fixpoint log_each (msgs : list (LogLevel * string)) : action Outputs Exn unit :=
  match msgs with
  | [] => ret tt
  | lm :: rest => separate_outputs_log (fst lm) (snd lm) ;; log_each rest
  end.

End separate_outputs.

(** The messages, each followed by a newline. *)
Fixpoint text (msgs : list (LogLevel * string)) : string :=
  match msgs with
  | [] => EmptyString
  | lm :: rest => (snd lm ++ endl ++ text rest)%string
  end.

Definition is_Trace (lm : LogLevel * string) : bool := LogLevel_eqb (fst lm) Trace.

End Ideas.

(** * Properties *)

Import simple_logger.

(** ** Effects *)

Lemma bind_ret_tt {St Exn : Type} (c : action St Exn unit) (s : St) :
  (c ;; ret tt) s = c s.
Proof.
  unfold bind, ret.
  destruct (c s) as [[] s' | e s' | ]; reflexivity.
Qed.

Lemma process_eta {World : Type} (p : Process World) :
  {| instance_initialized := instance_initialized p; world := world p |} = p.
Proof. destruct p; reflexivity. Qed.

Lemma on_world_ret {World Exn A : Type} (a : A) (p : Process World) :
  on_world (Exn := Exn) (ret a) p = Returns a p.
Proof. unfold on_world, ret. now rewrite process_eta. Qed.

(** ** The enumeration *)

(** C8: [LogLevel] has exactly the three enumerators [Info], [Debug] and
    [Trace]; the built-in comparison orders them as they are declared, so
    [Info < Debug < Trace], and [<=] is a total order (reflexive,
    antisymmetric, transitive, total) whose strict part is [<]; [>] and [>=]
    are the converses. *)
Theorem C8_LogLevel_three_constants_in_declaration_order :
  (forall l : LogLevel, l = Info \/ l = Debug \/ l = Trace) /\
  (forall l : LogLevel, In l enumerators) /\
  NoDup enumerators /\
  length enumerators = 3%nat /\
  LogLevel_ltb Info Debug = true /\
  LogLevel_ltb Debug Trace = true /\
  LogLevel_ltb Info Trace = true /\
  (forall a b, LogLevel_ltb a b = (position a <? position b)%nat) /\
  (forall a b, LogLevel_leb a b = (position a <=? position b)%nat) /\
  (forall a, LogLevel_leb a a = true) /\
  (forall a b, LogLevel_leb a b && LogLevel_leb b a =
               if LogLevel_eq_dec a b then true else false) /\
  (forall a b c, implb (LogLevel_leb a b && LogLevel_leb b c) (LogLevel_leb a c) = true) /\
  (forall a b, LogLevel_leb a b || LogLevel_leb b a = true) /\
  (forall a b, LogLevel_ltb a b = LogLevel_leb a b && negb (LogLevel_leb b a)) /\
  (forall a b, LogLevel_gtb a b = LogLevel_ltb b a) /\
  (forall a b, LogLevel_geb a b = LogLevel_leb b a).
Proof.
  repeat split.
  - destruct l; auto.
  - destruct l; simpl; auto.
  - repeat constructor; simpl; intuition discriminate.
  - intros [] []; reflexivity.
  - intros [] []; reflexivity.
  - intros []; reflexivity.
  - intros [] []; reflexivity.
  - intros [] [] []; reflexivity.
  - intros [] []; reflexivity.
  - intros [] []; reflexivity.
  - intros [] []; reflexivity.
  - intros [] []; reflexivity.
Qed.

(** ** The interface and the null object *)

Section InterfaceProperties.
Context {World Exn AppObject : Type}.
Variable class_of : AppObject -> Implementer World Exn.

Local Abbreviation the_instance := (address_of (AppObject := AppObject) instance).

(** C2: through any object, and through any pointer, [info(m)] does what
    [log(Info, m)] does, [debug(m)] what [log(Debug, m)] does and [trace(m)]
    what [log(Trace, m)] does: same result, same final state, same exception.
    A derived class supplies [log] and has no way to supply the three
    wrappers: for a class [d] they run [d]'s overrider of [log].  The same
    holds for the [SimpleLogger] of the header under [include/]. *)
Theorem C2_convenience_members_forward_to_log :
  (forall (this : SimpleLogger World Exn) (m : string) (w : World),
      info this m w = log this Info m w /\
      debug this m w = log this Debug m w /\
      trace this m w = log this Trace m w) /\
  (forall (d : Implementer World Exn) (m : string) (w : World),
      info (derive d) m w = override_log d Info m w /\
      debug (derive d) m w = override_log d Debug m w /\
      trace (derive d) m w = override_log d Trace m w) /\
  (forall (p : pointer AppObject) (m : string) (s : Process World),
      arrow class_of p (fun this => info this m) s =
        arrow class_of p (fun this => log this Info m) s /\
      arrow class_of p (fun this => debug this m) s =
        arrow class_of p (fun this => log this Debug m) s /\
      arrow class_of p (fun this => trace this m) s =
        arrow class_of p (fun this => log this Trace m) s) /\
  (forall (this : simple_logger_hpp.SimpleLogger World Exn) (m : string) (w : World),
      simple_logger_hpp.info this m w = simple_logger_hpp.log this Info m w /\
      simple_logger_hpp.debug this m w = simple_logger_hpp.log this Debug m w /\
      simple_logger_hpp.trace this m w = simple_logger_hpp.log this Trace m w).
Proof.
  split; [ | split; [ | split ] ]; [ | | | intros this m w;
    unfold simple_logger_hpp.info, simple_logger_hpp.debug, simple_logger_hpp.trace;
    now rewrite !bind_ret_tt ].
  - intros this m w. unfold info, debug, trace.
    now rewrite !bind_ret_tt.
  - intros d m w. unfold info, debug, trace.
    now rewrite !bind_ret_tt.
  - intros [ | o ] m s; simpl.
    + auto.
    + unfold on_world, info, debug, trace.
      now rewrite !bind_ret_tt.
Qed.

(** C7: a class that overrides the three pure virtual functions and not
    [is_active] answers [true]; [NullLogger] overrides it and answers
    [false], also when called through a pointer to the shared instance; in
    both cases nothing changes. *)
Theorem C7_is_active_default_true_NullLogger_false :
  (forall (g : action World Exn LogLevel)
          (s : LogLevel -> action World Exn unit)
          (l : LogLevel -> string -> action World Exn unit) (w : World),
      is_active
        (derive {| override_get_log_level := g;
                   override_set_log_level := s;
                   override_log := l;
                   override_is_active := None |}) w = Returns true w) /\
  (forall w : World, is_active (NullLogger (Exn := Exn)) w = Returns false w) /\
  (forall p : Process World, arrow class_of the_instance is_active p = Returns false p).
Proof.
  split; [ | split ].
  - reflexivity.
  - reflexivity.
  - intros p. simpl. apply on_world_ret.
Qed.

(** One call on the shared [NullLogger] returns and leaves the process as
    it was. *)
Lemma NullLogger_perform (c : call) (p : Process World) :
  exists a, arrow class_of the_instance (fun this => perform this c) p = Returns a p.
Proof.
  destruct p as [g w].
  destruct c; eexists; reflexivity.
Qed.

Lemma NullLogger_perform_all (cs : list call) (p : Process World) :
  exists answers,
    perform_all class_of the_instance cs p = Returns answers p /\
    length answers = length cs.
Proof.
  induction cs as [ | c cs IH ].
  - exists []. split; reflexivity.
  - destruct IH as [answers [Hrun Hlen]].
    destruct (NullLogger_perform c p) as [a Ha].
    exists (a :: answers). split.
    + cbn [perform_all]. unfold bind at 1. rewrite Ha.
      unfold bind at 1. rewrite Hrun. reflexivity.
    + simpl. now rewrite Hlen.
Qed.

(** C6: any sequence of calls of [get_log_level], [set_log_level], [log],
    [info], [debug], [trace] and [is_active] on the [NullLogger], with any
    arguments and from any state, returns (it neither throws nor is
    undefined), gives one answer per call, and leaves the state, world and
    guard, exactly as it was. *)
Theorem C6_NullLogger_calls_have_no_effect_and_return :
  forall (cs : list call) (p : Process World),
    exists answers,
      perform_all class_of the_instance cs p = Returns answers p /\
      length answers = length cs.
Proof. exact NullLogger_perform_all. Qed.

(** C5: after any sequence of calls on the [NullLogger], among them any
    [set_log_level], [get_log_level] returns [Info]; and whatever is called
    next does exactly what it would have done without the sequence, so no
    argument of [set_log_level] is kept or can be seen later. *)
Theorem C5_NullLogger_get_log_level_is_Info :
  forall (cs : list call) (p : Process World),
    (perform_all class_of the_instance cs ;;
     arrow class_of the_instance get_log_level) p = Returns Info p /\
    (forall level : LogLevel,
        (perform_all class_of the_instance (cs ++ [call_set_log_level level]) ;;
         arrow class_of the_instance get_log_level) p = Returns Info p) /\
    (forall c : call,
        (perform_all class_of the_instance cs ;;
         arrow class_of the_instance (fun this => perform this c)) p =
        arrow class_of the_instance (fun this => perform this c) p).
Proof.
  intros cs p.
  assert (Hget : arrow class_of the_instance get_log_level p = Returns Info p)
    by (simpl; apply on_world_ret).
  split; [ | split ].
  - destruct (NullLogger_perform_all cs p) as [answers [Hrun _]].
    unfold bind. now rewrite Hrun.
  - intros level.
    destruct (NullLogger_perform_all (cs ++ [call_set_log_level level]) p)
      as [answers [Hrun _]].
    unfold bind. now rewrite Hrun.
  - intros c.
    destruct (NullLogger_perform_all cs p) as [answers [Hrun _]].
    unfold bind. now rewrite Hrun.
Qed.

(** ** [null_logger] and [normalize] *)

Lemma null_logger_returns (p : Process World) :
  null_logger (Exn := Exn) (AppObject := AppObject) p =
    Returns the_instance {| instance_initialized := true; world := world p |}.
Proof.
  unfold null_logger, bind, static_NullLogger_instance, ret.
  destruct p as [[ | ] w]; reflexivity.
Qed.

Lemma normalize_present (o : object AppObject) (p : Process World) :
  normalize (Exn := Exn) (address_of o) p = Returns (address_of o) p.
Proof. reflexivity. Qed.

Lemma normalize_absent (p : Process World) :
  normalize (Exn := Exn) (AppObject := AppObject) nullptr p =
    Returns the_instance {| instance_initialized := true; world := world p |}.
Proof. unfold normalize. simpl. apply null_logger_returns. Qed.

(** C9: every call of [null_logger] returns, and returns the address of the
    one function-local [instance]: two calls, from whatever states, return
    the same pointer, and so do two calls made one after the other. *)
Theorem C9_null_logger_same_instance :
  (forall p1 p2 : Process World,
      returned (null_logger (Exn := Exn) (AppObject := AppObject) p1) = Some the_instance /\
      returned (null_logger (Exn := Exn) (AppObject := AppObject) p1) =
        returned (null_logger (Exn := Exn) (AppObject := AppObject) p2)) /\
  (forall p : Process World,
      returned ((first <- null_logger (Exn := Exn) ;;
                 second <- null_logger ;;
                 ret (first, second)) p) = Some (the_instance, the_instance)).
Proof.
  split.
  - intros p1 p2. now rewrite !null_logger_returns.
  - intros p. unfold bind at 1. rewrite null_logger_returns.
    unfold bind at 1. rewrite null_logger_returns. reflexivity.
Qed.

(** C3: [normalize] returns for every argument and every state (it neither
    throws nor is undefined), what it returns is never [nullptr], and it
    leaves the world as it was.  For [nullptr] it returns the address of the
    shared [NullLogger]: through that pointer [is_active] answers [false],
    and [log], for any level and message, returns and changes nothing. *)
Theorem C3_normalize_never_null_and_null_object_is_inert :
  (forall (logger : pointer AppObject) (p : Process World),
      exists q p',
        normalize (Exn := Exn) logger p = Returns q p' /\
        q <> nullptr /\ to_bool q = true /\ world p' = world p) /\
  (forall p : Process World,
      exists p',
        normalize (Exn := Exn) nullptr p = Returns the_instance p' /\
        world p' = world p) /\
  (forall p : Process World,
      arrow class_of the_instance is_active p = Returns false p) /\
  (forall (level : LogLevel) (message : string) (p : Process World),
      arrow class_of the_instance (fun this => log this level message) p = Returns tt p).
Proof.
  split; [ | split; [ | split ] ].
  - intros [ | o ] p.
    + exists the_instance. eexists. rewrite normalize_absent.
      repeat split. discriminate.
    + exists (address_of o), p. rewrite normalize_present.
      repeat split. discriminate.
  - intros p. eexists. rewrite normalize_absent. split; reflexivity.
  - intros p. simpl. apply on_world_ret.
  - intros level message p. simpl. apply on_world_ret.
Qed.

(** C4: for a pointer [x] other than [nullptr], [normalize(x)] returns [x]
    itself and changes nothing (the shared instance is not even
    initialized by the call). *)
Theorem C4_normalize_present_is_identity :
  forall (x : pointer AppObject) (p : Process World),
    x <> nullptr ->
    normalize (Exn := Exn) x p = Returns x p.
Proof.
  intros [ | o ] p Hx.
  - contradiction.
  - apply normalize_present.
Qed.

(** C10: normalizing twice is normalizing once: for every pointer and
    every state, [normalize(normalize(p))] returns the same pointer as
    [normalize(p)] and ends in the same state. *)
Theorem C10_normalize_idempotent :
  forall (logger : pointer AppObject) (p : Process World),
    (q <- normalize (Exn := Exn) logger ;; normalize q) p =
      normalize (Exn := Exn) logger p.
Proof.
  intros [ | o ] p; unfold bind.
  - rewrite normalize_absent. apply normalize_present.
  - rewrite normalize_present. apply normalize_present.
Qed.

End InterfaceProperties.

(** A present pointer: the address of an application's [ConsoleLogger]. *)
Lemma C4_normalize_present_is_identity_witness :
  address_of (app_object tt) <> nullptr /\
  normalize (Exn := Empty_set) (address_of (app_object tt))
      {| instance_initialized := false; world := README.fresh EmptyString |} =
    Returns (address_of (app_object tt))
      {| instance_initialized := false; world := README.fresh EmptyString |}.
Proof.
  split.
  - discriminate.
  - apply (C4_normalize_present_is_identity
             (address_of (app_object tt))
             {| instance_initialized := false; world := README.fresh EmptyString |}).
    discriminate.
Defined.

(** ** Threshold filtering *)

Section ThresholdProperties.
Context {World Exn : Type}.
Variable current_level : World -> LogLevel.
Variable output : World -> string.
Variable render : LogLevel -> string -> string.

(** The scenario on an implementer that filters by [includes]: it returns,
    the threshold is [Debug], and each of the three messages is shown or
    not as [includes] says against [Debug]. *)
Lemma scenario_filtered (includes : LogLevel -> LogLevel -> bool)
    (this : SimpleLogger World Exn) :
  filters_by includes current_level output render this ->
  forall w, exists w',
    scenario this w = Returns tt w' /\
    current_level w' = Debug /\
    output w' =
      let shown (level : LogLevel) (message : string) (so_far : string) :=
        if includes level Debug then (so_far ++ render level message)%string else so_far in
      shown Trace "c"%string (shown Debug "b"%string (shown Info "a"%string (output w))).
Proof.
  intros [Hset Hlog] w.
  destruct (Hset Debug w) as [w1 [E1 [L1 O1]]].
  destruct (Hlog Info "a"%string w1) as [w2 [E2 [L2 O2]]].
  destruct (Hlog Debug "b"%string w2) as [w3 [E3 [L3 O3]]].
  destruct (Hlog Trace "c"%string w3) as [w4 [E4 [L4 O4]]].
  exists w4. unfold scenario, bind.
  rewrite E1, E2, E3, E4.
  split; [ reflexivity | split ].
  - congruence.
  - cbv zeta.
    rewrite O4, O3, O2, O1, L3, L2, L1. reflexivity.
Qed.

End ThresholdProperties.

Lemma append_assoc (a b c : string) : ((a ++ b) ++ c = a ++ b ++ c)%string.
Proof.
  induction a as [ | x a IH ]; simpl.
  - reflexivity.
  - now rewrite IH.
Qed.

Lemma append_inv_head (a b c : string) : (a ++ b = a ++ c)%string -> b = c.
Proof.
  induction a as [ | x a IH ]; simpl; intros H.
  - exact H.
  - injection H as H. now apply IH.
Qed.

(** The README's [ConsoleLogger] keeps its level and shows a message
    exactly when [level >= current_level]. *)
Lemma ConsoleLogger_filters_by_geb {Exn : Type} :
  filters_by LogLevel_geb README.current_level README.cout README.line
    (derive (README.ConsoleLogger (Exn := Exn))).
Proof.
  split.
  - intros level w. eexists. repeat split.
  - intros level message w. simpl. unfold README.ConsoleLogger_log.
    destruct (LogLevel_geb level (README.current_level w));
      eexists; repeat split.
Qed.

(** C1: the README's [ConsoleLogger] is an implementer of the kind the
    claim describes: it keeps the level it is given and shows a message
    exactly when [level >= current_level].  On a newly constructed one,
    whatever [std::cout] holds, the calls [set_log_level(Debug)],
    [log(Info, "a")], [log(Debug, "b")], [log(Trace, "c")] return and
    append the lines of "b" and "c": the message of level [Info] is dropped
    and the one of level [Trace] is written.  That is not the lines of "a"
    and "b", which the claim and the outputs documented in the README give
    for a threshold of [Debug]. *)
Theorem C1_ConsoleLogger_at_Debug_writes_b_and_c_not_a_and_b :
  filters_by LogLevel_geb README.current_level README.cout README.line
    (derive (README.ConsoleLogger (Exn := Empty_set))) /\
  forall out : string,
    scenario (derive (README.ConsoleLogger (Exn := Empty_set))) (README.fresh out) =
      Returns tt
        {| README.current_level := Debug;
           README.cout :=
             (out ++ README.line Debug "b" ++ README.line Trace "c")%string |} /\
    (out ++ README.line Debug "b" ++ README.line Trace "c")%string <>
    (out ++ README.line Info "a" ++ README.line Debug "b")%string.
Proof.
  split; [ exact ConsoleLogger_filters_by_geb | ].
  intros out. split.
  - unfold scenario, bind. cbn.
    now rewrite append_assoc.
  - intros H. apply append_inv_head in H.
    vm_compute in H. discriminate H.
Qed.

(** * Further properties *)

(** ** Strings and sequencing *)

Lemma append_nil_r (a : string) : (a ++ EmptyString)%string = a.
Proof.
  induction a as [ | x a IH ]; simpl.
  - reflexivity.
  - now rewrite IH.
Qed.

Lemma bind_returns {St Exn A B : Type}
    (c : action St Exn A) (k : A -> action St Exn B) (s s' : St) (a : A) :
  c s = Returns a s' -> bind c k s = k a s'.
Proof. intros H. unfold bind. now rewrite H. Qed.

Lemma bind_ret_l {St Exn A B : Type} (a : A) (k : A -> action St Exn B) :
  bind (ret a) k = k a.
Proof. reflexivity. Qed.

(** ** The [ConsoleLogger] of the README *)

Section ConsoleLoggerProperties.
Import README Application.
Context {Exn : Type}.

Local Abbreviation the_logger := (address_of logger).
Local Abbreviation console_classes := (class_of (Exn := Exn)).

Lemma lines_app (a b : list (LogLevel * string)) :
  lines (a ++ b) = (lines a ++ lines b)%string.
Proof.
  induction a as [ | lm a IH ]; simpl.
  - reflexivity.
  - now rewrite IH, append_assoc.
Qed.

Lemma lines_passing_cons (t : LogLevel) (lm : LogLevel * string)
    (rest : list (LogLevel * string)) :
  lines (passing t (lm :: rest)) = (lines (passing t [lm]) ++ lines (passing t rest))%string.
Proof.
  unfold passing. cbn [filter].
  destruct (LogLevel_geb (fst lm) t); cbn [lines].
  - now rewrite append_nil_r.
  - reflexivity.
Qed.

Lemma lines_passing_step (t : LogLevel) (lm : LogLevel * string)
    (rest : list (LogLevel * string)) :
  lines (passing t (lm :: rest)) =
    ((if LogLevel_geb (fst lm) t then line (fst lm) (snd lm) else EmptyString) ++
     lines (passing t rest))%string.
Proof.
  unfold passing. cbn [filter].
  destruct (LogLevel_geb (fst lm) t); reflexivity.
Qed.

(** One [log] on the console: the level stays, the line is appended when
    the message passes. *)
Lemma ConsoleLogger_log_passing (l : LogLevel) (m : string) (c : Console) :
  ConsoleLogger_log (Exn := Exn) l m c =
    Returns tt {| current_level := current_level c;
                  cout := (cout c ++ lines (passing (current_level c) [(l, m)]))%string |}.
Proof.
  unfold ConsoleLogger_log, passing. cbn [filter fst snd].
  destruct (LogLevel_geb l (current_level c)); cbn [lines fst snd].
  - unfold line. now rewrite append_nil_r.
  - rewrite append_nil_r. destruct c; reflexivity.
Qed.

Lemma logger_log (g : bool) (l : LogLevel) (m : string) (c : Console) :
  arrow console_classes the_logger (fun this => log this l m)
      {| instance_initialized := g; world := c |} =
    Returns tt
      {| instance_initialized := g;
         world := {| current_level := current_level c;
                     cout := (cout c ++ lines (passing (current_level c) [(l, m)]))%string |} |}.
Proof.
  cbn [arrow vtable logger class_of derive log ConsoleLogger override_log].
  unfold on_world. cbn [world instance_initialized].
  now rewrite ConsoleLogger_log_passing.
Qed.

Lemma logger_wrappers (g : bool) (m : string) (c : Console) :
  let after (l : LogLevel) :=
    Returns (Exn := Exn) tt
      {| instance_initialized := g;
         world := {| current_level := current_level c;
                     cout := (cout c ++ lines (passing (current_level c) [(l, m)]))%string |} |} in
  arrow console_classes the_logger (fun this => info this m)
      {| instance_initialized := g; world := c |} = after Info /\
  arrow console_classes the_logger (fun this => debug this m)
      {| instance_initialized := g; world := c |} = after Debug /\
  arrow console_classes the_logger (fun this => trace this m)
      {| instance_initialized := g; world := c |} = after Trace.
Proof.
  cbv zeta.
  repeat split;
    cbn [arrow vtable logger class_of];
    unfold on_world, info, debug, trace;
    rewrite bind_ret_tt;
    cbn [world instance_initialized derive log class_of ConsoleLogger override_log];
    now rewrite ConsoleLogger_log_passing.
Qed.

(** One call of any member: it returns, the guard stays, the level is the
    one set if the call is [set_log_level], and [std::cout] has grown. *)
Lemma logger_perform (c : call) (p : Process Console) :
  exists (a : answer) (suffix : string),
    arrow console_classes the_logger (fun this => perform this c) p =
      Returns a
        {| instance_initialized := instance_initialized p;
           world := {| current_level := last_set (current_level (world p)) [c];
                       cout := (cout (world p) ++ suffix)%string |} |}.
Proof.
  destruct p as [g [t out]].
  assert (Hnil : forall (t' : LogLevel) (a : answer),
             exists (a' : answer) (suffix : string),
               Returns (Exn := Exn) a
                 {| instance_initialized := g;
                    world := {| current_level := t'; cout := out |} |} =
               Returns a'
                 {| instance_initialized := g;
                    world := {| current_level := t'; cout := (out ++ suffix)%string |} |}).
  { intros t' a. exists a, EmptyString. now rewrite append_nil_r. }
  destruct c as [ | level | level message | message | message | message | ];
    cbn [arrow vtable logger class_of perform last_set fold_left world current_level cout
         instance_initialized];
    unfold on_world, bind, info, debug, trace, bind, ret;
    cbn [world current_level cout instance_initialized derive get_log_level set_log_level
         log is_active class_of ConsoleLogger override_get_log_level override_set_log_level
         override_log override_is_active];
    unfold ConsoleLogger_get_log_level, ConsoleLogger_set_log_level, SimpleLogger_is_active,
      ret;
    try rewrite ConsoleLogger_log_passing;
    cbn [world current_level cout instance_initialized];
    try apply Hnil;
    try (eexists; eexists; reflexivity).
Qed.

Lemma logger_perform_all (cs : list call) (p : Process Console) :
  exists (answers : list answer) (suffix : string),
    perform_all console_classes the_logger cs p =
      Returns answers
        {| instance_initialized := instance_initialized p;
           world := {| current_level := last_set (current_level (world p)) cs;
                       cout := (cout (world p) ++ suffix)%string |} |} /\
    length answers = length cs.
Proof.
  revert p. induction cs as [ | c cs IH ]; intros p.
  - exists [], EmptyString. split; [ | reflexivity ].
    destruct p as [g [t out]]. cbn. unfold ret. now rewrite append_nil_r.
  - destruct (logger_perform c p) as [a [s1 Hc]].
    cbn [perform_all].
    rewrite (bind_returns _ _ _ _ _ Hc).
    match type of Hc with _ = Returns _ ?p1 =>
      destruct (IH p1) as [answers [s2 [Hrest Hlen]]] end.
    rewrite (bind_returns _ _ _ _ _ Hrest).
    exists (a :: answers), (s1 ++ s2)%string.
    split; [ | simpl; now rewrite Hlen ].
    unfold ret. cbn [world current_level cout instance_initialized].
    now rewrite append_assoc.
Qed.

(** X1: [ConsoleLogger] keeps the last level it was given.  After any
    sequence of member calls (logging calls and queries included),
    [get_log_level] returns the argument of the last [set_log_level] of the
    sequence, or the level held before when the sequence has none. *)
Theorem ConsoleLogger_get_log_level_is_last_set :
  forall (cs : list call) (p : Process Console),
    exists (answers : list answer) (p' : Process Console),
      perform_all console_classes the_logger cs p = Returns answers p' /\
      arrow console_classes the_logger get_log_level p' =
        Returns (last_set (current_level (world p)) cs) p'.
Proof.
  intros cs p.
  destruct (logger_perform_all cs p) as [answers [suffix [Hrun _]]].
  eexists. eexists. split; [ exact Hrun | reflexivity ].
Qed.

(** X2: any sequence of member calls on a [ConsoleLogger] returns (no
    exception, nothing undefined) with one answer per call, only ever
    appends to [std::cout] (what was written stays a prefix), and leaves
    the guard of the shared [NullLogger] alone. *)
Theorem ConsoleLogger_calls_return_and_only_append :
  forall (cs : list call) (p : Process Console),
    exists (answers : list answer) (p' : Process Console) (suffix : string),
      perform_all console_classes the_logger cs p = Returns answers p' /\
      cout (world p') = (cout (world p) ++ suffix)%string /\
      instance_initialized p' = instance_initialized p /\
      length answers = length cs.
Proof.
  intros cs p.
  destruct (logger_perform_all cs p) as [answers [suffix [Hrun Hlen]]].
  eexists. eexists. exists suffix.
  split; [ exact Hrun | ]. repeat split. exact Hlen.
Qed.

Lemma logger_log_calls (msgs : list (LogLevel * string)) (p : Process Console) :
  exists answers : list answer,
    perform_all console_classes the_logger (log_calls msgs) p =
      Returns answers
        {| instance_initialized := instance_initialized p;
           world :=
             {| current_level := current_level (world p);
                cout := (cout (world p) ++
                         lines (passing (current_level (world p)) msgs))%string |} |}.
Proof.
  revert p. induction msgs as [ | [l m] msgs IH ]; intros [g [t out]].
  - exists []. cbn. unfold ret. now rewrite append_nil_r.
  - cbn [log_calls map perform_all fst snd perform].
    assert (Hlog : arrow console_classes the_logger
                     (fun this => log this l m ;; ret answer_void)
                     {| instance_initialized := g;
                        world := {| current_level := t; cout := out |} |} =
                   Returns answer_void
                     {| instance_initialized := g;
                        world := {| current_level := t;
                                    cout := (out ++ lines (passing t [(l, m)]))%string |} |}).
    { cbn [arrow vtable logger class_of]. unfold on_world, bind.
      cbn [world instance_initialized derive log class_of ConsoleLogger override_log].
      now rewrite ConsoleLogger_log_passing. }
    rewrite (bind_returns _ _ _ _ _ Hlog).
    match type of Hlog with _ = Returns _ ?p1 => destruct (IH p1) as [answers Hrest] end.
    fold (log_calls msgs).
    rewrite (bind_returns _ _ _ _ _ Hrest).
    exists (answer_void :: answers). unfold ret.
    cbn [world current_level cout instance_initialized].
    now rewrite (lines_passing_cons t (l, m) msgs), append_assoc.
Qed.

(** X3: what a run of [log] calls writes.  With the threshold unchanged
    throughout, [ConsoleLogger] appends to [std::cout] the lines of exactly
    the messages whose level is [>=] the threshold, in call order, and
    nothing else; the threshold stays. *)
Theorem ConsoleLogger_writes_the_messages_at_or_above_threshold :
  forall (msgs : list (LogLevel * string)) (p : Process Console),
    exists answers : list answer,
      perform_all console_classes the_logger (log_calls msgs) p =
        Returns answers
          {| instance_initialized := instance_initialized p;
             world :=
               {| current_level := current_level (world p);
                  cout := (cout (world p) ++
                           lines (passing (current_level (world p)) msgs))%string |} |}.
Proof. exact logger_log_calls. Qed.

Lemma passing_Info (msgs : list (LogLevel * string)) : passing Info msgs = msgs.
Proof.
  unfold passing. induction msgs as [ | [[ | | ] m] msgs IH ]; cbn; now rewrite ?IH.
Qed.

Lemma passing_Trace (msgs : list (LogLevel * string)) :
  passing Trace msgs = filter (fun lm => LogLevel_eqb (fst lm) Trace) msgs.
Proof.
  unfold passing. induction msgs as [ | [[ | | ] m] msgs IH ]; cbn; now rewrite ?IH.
Qed.

(** X4: the two ends of the threshold.  A newly constructed
    [ConsoleLogger] (threshold [Info]) writes every message it is given,
    whatever its level; after [set_log_level(Trace)] it writes the messages
    of level [Trace] and no other. *)
Theorem ConsoleLogger_Info_writes_all_Trace_writes_only_Trace :
  forall (msgs : list (LogLevel * string)) (g : bool) (out : string),
    (exists answers : list answer,
        perform_all console_classes the_logger (log_calls msgs)
            {| instance_initialized := g; world := fresh out |} =
          Returns answers
            {| instance_initialized := g;
               world := {| current_level := Info;
                           cout := (out ++ lines msgs)%string |} |}) /\
    (exists answers : list answer,
        (arrow console_classes the_logger (fun this => set_log_level this Trace) ;;
         perform_all console_classes the_logger (log_calls msgs))
            {| instance_initialized := g; world := fresh out |} =
          Returns answers
            {| instance_initialized := g;
               world :=
                 {| current_level := Trace;
                    cout := (out ++ lines (filter (fun lm => LogLevel_eqb (fst lm) Trace)
                                                  msgs))%string |} |}).
Proof.
  intros msgs g out. split.
  - destruct (logger_log_calls msgs {| instance_initialized := g; world := fresh out |})
      as [answers Hrun].
    exists answers. rewrite Hrun.
    cbn [world current_level cout instance_initialized fresh].
    now rewrite passing_Info.
  - destruct (logger_log_calls msgs
                {| instance_initialized := g;
                   world := {| current_level := Trace; cout := out |} |})
      as [answers Hrun].
    exists answers. unfold bind at 1.
    cbn [arrow vtable logger class_of]. unfold on_world.
    cbn [world instance_initialized derive set_log_level class_of ConsoleLogger
         override_set_log_level].
    unfold ConsoleLogger_set_log_level. cbn [fresh cout].
    rewrite Hrun.
    cbn [world current_level cout instance_initialized].
    now rewrite passing_Trace.
Qed.

Lemma logger_is_active (p : Process Console) :
  arrow console_classes the_logger is_active p = Returns true p.
Proof. destruct p; reflexivity. Qed.

(** [semantic_analysis(&logger)] with a [compute_detailed_stats] that
    returns [stats] and does nothing else. *)
Lemma semantic_analysis_logger (stats : string) (g : bool) (c : Console) :
  Library.semantic_analysis console_classes (ret stats) the_logger
      {| instance_initialized := g; world := c |} =
    Returns tt
      {| instance_initialized := g;
         world :=
           {| current_level := current_level c;
              cout := (cout c ++
                       lines (passing (current_level c) (Library.messages stats)))%string |} |}.
Proof.
  unfold Library.semantic_analysis, Library.messages.
  rewrite (bind_returns _ _ _ _ _ (normalize_present _ _)).
  rewrite (bind_returns _ _ _ _ _ (proj1 (logger_wrappers _ _ _))).
  rewrite (bind_returns _ _ _ _ _ (logger_is_active _)).
  cbv beta iota.
  rewrite bind_ret_l.
  rewrite (bind_returns _ _ _ _ _ (proj1 (proj2 (logger_wrappers _ _ _)))).
  cbn [current_level cout].
  rewrite (bind_returns _ _ _ _ _ (proj1 (proj2 (logger_wrappers _ _ _)))).
  cbn [current_level cout].
  rewrite (bind_returns _ _ _ _ _ (proj1 (proj2 (logger_wrappers _ _ _)))).
  cbn [current_level cout].
  rewrite (bind_returns _ _ _ _ _ (proj2 (proj2 (logger_wrappers _ _ _)))).
  cbn [current_level cout].
  rewrite (bind_returns _ _ _ _ _ (proj2 (proj2 (logger_wrappers _ _ _)))).
  cbn [current_level cout].
  rewrite (proj1 (logger_wrappers _ _ _)).
  cbn [current_level cout].
  rewrite !lines_passing_step, !append_nil_r, !append_assoc.
  reflexivity.
Qed.

(** X5: [semantic_analysis] on a [ConsoleLogger].  The logger is active,
    so [compute_detailed_stats] is run; with its result [stats], the
    function returns having appended to [std::cout] the lines of exactly
    those of its seven messages whose level is [>=] the logger's threshold,
    in order; the threshold and the guard are unchanged. *)
Theorem semantic_analysis_on_ConsoleLogger :
  forall (stats : string) (g : bool) (c : Console),
    Library.semantic_analysis console_classes (ret stats) the_logger
        {| instance_initialized := g; world := c |} =
      Returns tt
        {| instance_initialized := g;
           world :=
             {| current_level := current_level c;
                cout := (cout c ++
                         lines (passing (current_level c) (Library.messages stats)))%string |} |}.
Proof. exact semantic_analysis_logger. Qed.

End ConsoleLoggerProperties.

(** ** The guard of the shared instance, and [semantic_analysis] in general *)

Lemma bind_defined {St Exn A B : Type}
    (c : action St Exn A) (k : A -> action St Exn B) (s : St) :
  c s <> Undefined ->
  (forall a s', c s = Returns a s' -> k a s' <> Undefined) ->
  bind c k s <> Undefined.
Proof.
  intros Hc Hk. unfold bind.
  destruct (c s) as [a s' | e s' | ].
  - now apply Hk.
  - discriminate.
  - contradiction.
Qed.

Section LibraryProperties.
Context {World Exn AppObject : Type}.
Variable class_of : AppObject -> Implementer World Exn.
Variable compute_detailed_stats : action (Process World) Exn string.

Local Abbreviation the_instance := (address_of (AppObject := AppObject) instance).

(** X6: the shared instance is initialized lazily and once.  [null_logger]
    sets the guard and changes nothing else, and a second call changes
    nothing at all; [normalize] sets the guard exactly when its argument is
    [nullptr] (a present pointer never causes the initialization), and
    never clears it. *)
Theorem shared_instance_initialized_lazily_and_once :
  (forall p : Process World,
      exists p' : Process World,
        null_logger (Exn := Exn) p = Returns the_instance p' /\
        instance_initialized p' = true /\
        world p' = world p /\
        null_logger (Exn := Exn) p' = Returns the_instance p') /\
  (forall (logger : pointer AppObject) (p : Process World),
      exists (q : pointer AppObject) (p' : Process World),
        normalize (Exn := Exn) logger p = Returns q p' /\
        instance_initialized p' = (instance_initialized p || negb (to_bool logger)) /\
        world p' = world p).
Proof.
  split.
  - intros p. eexists. rewrite null_logger_returns.
    split; [ reflexivity | ]. split; [ reflexivity | ]. split; [ reflexivity | ].
    now rewrite null_logger_returns.
  - intros [ | o ] p.
    + eexists. eexists. rewrite normalize_absent.
      split; [ reflexivity | ]. split; [ | reflexivity ].
      cbn. now rewrite orb_true_r.
    + eexists. eexists. rewrite normalize_present.
      split; [ reflexivity | ]. split; [ | reflexivity ].
      cbn. now rewrite orb_false_r.
Qed.

Lemma semantic_analysis_nullptr (p : Process World) :
  Library.semantic_analysis class_of compute_detailed_stats nullptr p =
    Returns tt {| instance_initialized := true; world := world p |}.
Proof.
  unfold Library.semantic_analysis.
  rewrite (bind_returns _ _ _ _ _ (normalize_absent p)).
  reflexivity.
Qed.

(** X7: without a logger, [semantic_analysis] does nothing.  Called with
    [nullptr], or with the address of the shared [NullLogger], it returns,
    leaves the world as it was, and never runs [compute_detailed_stats],
    whatever that function would do (throw and undefined behaviour
    included); with [nullptr] the shared instance ends up initialized. *)
Theorem semantic_analysis_without_logger_is_inert :
  forall p : Process World,
    Library.semantic_analysis class_of compute_detailed_stats nullptr p =
      Returns tt {| instance_initialized := true; world := world p |} /\
    Library.semantic_analysis class_of compute_detailed_stats the_instance p =
      Returns tt p.
Proof.
  intros p. split.
  - apply semantic_analysis_nullptr.
  - destruct p as [g w]. reflexivity.
Qed.

Lemma on_world_defined {A : Type} (c : action World Exn A) (p : Process World) :
  c (world p) <> Undefined -> on_world c p <> Undefined.
Proof.
  unfold on_world. destruct (c (world p)); [ discriminate | discriminate | auto ].
Qed.

(** X8: [semantic_analysis] has defined behaviour for every pointer,
    [nullptr] included, as soon as the application's own code has: if no
    [log] and no [is_active] of the application's classes is undefined, and
    [compute_detailed_stats] is not, then no call of [semantic_analysis] is
    undefined. *)
Theorem semantic_analysis_never_undefined :
  (forall (a : AppObject) (l : LogLevel) (m : string) (w : World),
      override_log (class_of a) l m w <> Undefined) ->
  (forall (a : AppObject) (w : World),
      is_active (derive (class_of a)) w <> Undefined) ->
  (forall s : Process World, compute_detailed_stats s <> Undefined) ->
  forall (logger : pointer AppObject) (p : Process World),
    Library.semantic_analysis class_of compute_detailed_stats logger p <> Undefined.
Proof.
  intros Hlog Hactive Hstats logger p.
  assert (Hl : forall o l m w, log (vtable class_of o) l m w <> Undefined).
  { intros [ | a ] l m w; [ discriminate | apply Hlog ]. }
  assert (Ha : forall o w, is_active (vtable class_of o) w <> Undefined).
  { intros [ | a ] w; [ discriminate | apply Hactive ]. }
  assert (Hinfo : forall o m s,
             arrow class_of (address_of o) (fun this => info this m) s <> Undefined).
  { intros o m s. apply on_world_defined. unfold info. rewrite bind_ret_tt. apply Hl. }
  assert (Hdebug : forall o m s,
             arrow class_of (address_of o) (fun this => debug this m) s <> Undefined).
  { intros o m s. apply on_world_defined. unfold debug. rewrite bind_ret_tt. apply Hl. }
  assert (Htrace : forall o m s,
             arrow class_of (address_of o) (fun this => trace this m) s <> Undefined).
  { intros o m s. apply on_world_defined. unfold trace. rewrite bind_ret_tt. apply Hl. }
  unfold Library.semantic_analysis.
  apply bind_defined.
  - destruct logger; [ rewrite normalize_absent | rewrite normalize_present ]; discriminate.
  - intros q s Hq.
    assert (Hpresent : exists o, q = address_of o).
    { destruct logger as [ | o ].
      - rewrite normalize_absent in Hq. injection Hq as <- _. now exists instance.
      - rewrite normalize_present in Hq. injection Hq as <- _. now exists o. }
    destruct Hpresent as [o ->].
    apply bind_defined; [ apply Hinfo | intros _ s1 _ ].
    apply bind_defined; [ apply on_world_defined, Ha | intros active s2 _ ].
    apply bind_defined.
    { destruct active; [ | discriminate ].
      apply bind_defined; [ apply Hstats | intros stats s3 _; apply Hdebug ]. }
    intros _ s3 _.
    apply bind_defined; [ apply Hdebug | intros _ s4 _ ].
    apply bind_defined; [ apply Hdebug | intros _ s5 _ ].
    apply bind_defined; [ apply Htrace | intros _ s6 _ ].
    apply bind_defined; [ apply Htrace | intros _ s7 _ ].
    apply Hinfo.
Qed.

End LibraryProperties.

(** The README's application meets the hypotheses: [ConsoleLogger] always
    returns, and so does a [compute_detailed_stats] that returns a string. *)
Lemma semantic_analysis_never_undefined_witness :
  (forall (a : unit) (l : LogLevel) (m : string) (w : README.Console),
      override_log (Application.class_of (Exn := Empty_set) a) l m w <> Undefined) /\
  Library.semantic_analysis (Application.class_of (Exn := Empty_set)) (ret EmptyString)
      nullptr {| instance_initialized := false; world := README.fresh EmptyString |}
    <> Undefined.
Proof.
  assert (Hlog : forall (a : unit) (l : LogLevel) (m : string) (w : README.Console),
             override_log (Application.class_of (Exn := Empty_set) a) l m w <> Undefined).
  { intros a l m w. cbn. unfold README.ConsoleLogger_log.
    destruct (LogLevel_geb l (README.current_level w)); discriminate. }
  split.
  - exact Hlog.
  - apply (semantic_analysis_never_undefined
             (Application.class_of (Exn := Empty_set)) (ret EmptyString)).
    + exact Hlog.
    + intros a w. discriminate.
    + intros s. discriminate.
Defined.

(** ** [main] *)

Section MainProperties.
Import README Application.
Context {Exn : Type}.

Lemma logger_set_log_level (g : bool) (l : LogLevel) (c : Console) :
  arrow (class_of (Exn := Exn)) (address_of logger) (fun this => set_log_level this l)
      {| instance_initialized := g; world := c |} =
    Returns tt
      {| instance_initialized := g;
         world := {| current_level := l; cout := cout c |} |}.
Proof. reflexivity. Qed.

Lemma construct_logger_returns (g : bool) (c : Console) :
  construct_logger (Exn := Exn) {| instance_initialized := g; world := c |} =
    Returns tt {| instance_initialized := g; world := fresh (cout c) |}.
Proof. reflexivity. Qed.

Lemma cout_insert_returns (text : string) (g : bool) (c : Console) :
  cout_insert (Exn := Exn) text {| instance_initialized := g; world := c |} =
    Returns tt
      {| instance_initialized := g;
         world := {| current_level := current_level c;
                     cout := (cout c ++ text)%string |} |}.
Proof. reflexivity. Qed.

(** X9: what [main] prints.  With [compute_detailed_stats] returning
    [stats], [main] returns 0 and has appended to [std::cout]: all seven
    messages of the first run (threshold [Info]), the first separator, the
    messages of level [Debug] and [Trace] of the second run (threshold
    [Debug]), the second separator, and nothing for the run with
    [nullptr]; the logger is left at [Debug] and the shared [NullLogger]
    initialized. *)
Theorem main_output :
  forall (stats : string) (p : Process Console),
    main (Exn := Exn) (ret stats) p =
      Returns 0
        {| instance_initialized := true;
           world :=
             {| current_level := Debug;
                cout := (cout (world p) ++
                         lines (Library.messages stats) ++
                         switching_to_Debug ++
                         lines (passing Debug (Library.messages stats)) ++
                         no_logging)%string |} |}.
Proof.
  intros stats [g [t out]]. unfold main.
  rewrite (bind_returns _ _ _ _ _ (construct_logger_returns _ _)).
  rewrite (bind_returns _ _ _ _ _ (logger_set_log_level _ _ _)).
  rewrite (bind_returns _ _ _ _ _ (semantic_analysis_logger _ _ _)).
  rewrite (bind_returns _ _ _ _ _ (cout_insert_returns _ _ _)).
  rewrite (bind_returns _ _ _ _ _ (logger_set_log_level _ _ _)).
  rewrite (bind_returns _ _ _ _ _ (semantic_analysis_logger _ _ _)).
  rewrite (bind_returns _ _ _ _ _ (cout_insert_returns _ _ _)).
  rewrite (bind_returns _ _ _ _ _ (semantic_analysis_nullptr _ _ _)).
  unfold ret. cbn [world fresh current_level cout].
  now rewrite passing_Info, !append_assoc.
Qed.

End MainProperties.

(** ** Separate outputs *)

Section IdeasProperties.
Import README Ideas.
Context {Exn : Type}.

(** X10: the logger with separate outputs routes every message to exactly
    one stream.  After any run of [log] calls, [debug_file] has gained the
    messages of level [Trace], [console] the messages of the other levels,
    each stream in call order and each message followed by a newline;
    nothing is dropped and nothing is written twice. *)
Theorem separate_outputs_partition :
  forall (msgs : list (LogLevel * string)) (o : Outputs),
    log_each (Exn := Exn) msgs o =
      Returns tt
        {| debug_file := (debug_file o ++ text (filter is_Trace msgs))%string;
           console :=
             (console o ++ text (filter (fun lm => negb (is_Trace lm)) msgs))%string |}.
Proof.
  induction msgs as [ | [l m] msgs IH ]; intros [d c].
  - cbn. unfold ret. now rewrite !append_nil_r.
  - cbn [log_each fst snd]. unfold bind, separate_outputs_log.
    cbn [filter].
    change (is_Trace (l, m)) with (LogLevel_eqb l Trace).
    destruct (LogLevel_eqb l Trace); cbn [negb];
      rewrite IH; cbn [debug_file console text fst snd];
      now rewrite !append_assoc.
Qed.

End IdeasProperties.
